(** * srm-solver: grain regression and nozzle performance

    A shallow embedding of the numerical core of the solver:
    - [FMM], [FMM64]   rocketsolver/models/propulsion/grain/fmm/__init__.py
    - [Bates]          srm_solver/models/motor/bates.py
    - [IsentropicFlow] srm_solver/functions/isentropic_flow.py

    Numbers.  Python [int] values are [Z].  Python [float] values are read
    as real numbers: [+], [-], [*], [/] and the comparisons are the
    operations of [R].  Rounding, overflow and division by zero are outside
    this reading, so it carries only properties that do not hang on the
    last place of a result.  Where the code calls into the C library
    ([np.sqrt], [np.exp], [**]) a value may be NaN: [fval] adds NaN to the
    reals, with the rule that every comparison with NaN is false.  [FMM64]
    evaluates the two conversion formulas in binary64 itself, as the
    interpreter does.

    Control.  A call either returns a value or raises; [result A] keeps the
    two apart.  The exceptions are the ones the modelled code can meet:
    failed assertions, indexing out of range, a call with the wrong number
    of arguments, a global name the module never binds, a local name read
    before any assignment. *)

From Stdlib Require Import PrimFloat.
From Stdlib Require Import Reals Lra List ZArith Lia Bool.
From Stdlib Require String.
Import ListNotations.
Import String.StringSyntax.
Delimit Scope string_scope with string.
Set Warnings "-inexact-float".

Open Scope R_scope.

(** ** Python runtime *)

Inductive exn : Type :=
| AssertionError
| GrainGeometryError
| IndexError
| TypeError
| ValueError
| NameError
| UnboundLocalError
| NonConvergenceError.

Definition result (A : Type) : Type := (exn + A)%type.

Definition ret {A : Type} (a : A) : result A := inr a.

Definition raise {A : Type} (e : exn) : result A := inl e.

Definition bind {A B : Type} (m : result A) (k : A -> result B) : result B :=
  match m with
  | inl e => inl e
  | inr a => k a
  end.

Notation "x <- m ;; k" := (bind m (fun x => k))
  (at level 61, m at next level, right associativity).

Notation "' pat <- m ;; k" :=
  (bind m (fun x => match x with pat => k end))
  (at level 61, pat pattern, m at next level, right associativity).

(** [assert c] *)
Definition py_assert (c : bool) : result unit :=
  if c then ret tt else raise AssertionError.

(** Comparisons of floats, as booleans. *)
Definition Rle_b (a b : R) : bool := if Rle_dec a b then true else false.
Definition Rlt_b (a b : R) : bool := if Rlt_dec a b then true else false.
Definition Rge_b (a b : R) : bool := Rle_b b a.
Definition Rgt_b (a b : R) : bool := Rlt_b b a.

Infix "<=?" := Rle_b : R_scope.
Infix "<?" := Rlt_b : R_scope.
Infix ">=?" := Rge_b (at level 70) : R_scope.
Infix ">?" := Rgt_b (at level 70) : R_scope.

(** [a == b] on floats. *)
Definition Req_b (a b : R) : bool := if Req_dec_T a b then true else false.

(** ** Floats that may be NaN *)

Inductive fval : Type :=
| Num (r : R)
| NaN.

Coercion Num : R >-> fval.

Definition lift1 (op : R -> R) (a : fval) : fval :=
  match a with
  | Num x => Num (op x)
  | NaN => NaN
  end.

Definition lift2 (op : R -> R -> R) (a b : fval) : fval :=
  match a, b with
  | Num x, Num y => Num (op x y)
  | _, _ => NaN
  end.

Definition fadd : fval -> fval -> fval := lift2 Rplus.
Definition fsub : fval -> fval -> fval := lift2 Rminus.
Definition fmul : fval -> fval -> fval := lift2 Rmult.
Definition fdiv : fval -> fval -> fval := lift2 Rdiv.
Definition fopp : fval -> fval := lift1 Ropp.

(** Every comparison with NaN is false. *)
Definition fle_b (a b : fval) : bool :=
  match a, b with
  | Num x, Num y => x <=? y
  | _, _ => false
  end.

Definition flt_b (a b : fval) : bool :=
  match a, b with
  | Num x, Num y => x <? y
  | _, _ => false
  end.

Definition fge_b (a b : fval) : bool := fle_b b a.
Definition fgt_b (a b : fval) : bool := flt_b b a.

Declare Scope fval_scope.
Delimit Scope fval_scope with fv.
Bind Scope fval_scope with fval.

Infix "+" := fadd : fval_scope.
Infix "-" := fsub : fval_scope.
Infix "*" := fmul : fval_scope.
Infix "/" := fdiv : fval_scope.
Notation "- x" := (fopp x) : fval_scope.
Infix "<=?" := fle_b : fval_scope.
Infix "<?" := flt_b : fval_scope.
Infix ">=?" := fge_b (at level 70) : fval_scope.
Infix ">?" := fgt_b (at level 70) : fval_scope.

(** [x ** n] for an integer literal [n]. *)
Definition fpowZ (x : fval) (n : Z) : fval := lift1 (fun r => powerRZ r n) x.

(** The functions of the C library that NumPy and the [**] operator reach:
    the embedding fixes nothing about them beyond their types, and each may
    hand back NaN. *)
Class Libm : Type := {
  np_exp : fval -> fval;
  np_sqrt : fval -> fval;
  float_pow : fval -> fval -> fval
}.

Infix "**" := float_pow (at level 30, right associativity) : fval_scope.

(** The square root and the power where they have a real value.  A
    negative radicand, a zero base under a negative exponent and a negative
    base under a fractional exponent have none: NaN stands for what the
    library hands back there. *)
Definition real_sqrt (x : R) : fval :=
  if x <? 0 then NaN else Num (sqrt x).

Definition real_pow (x y : R) : fval :=
  if Req_b y 0 then Num 1
  else if 0 <? x then Num (Rpower x y)
  else if Req_b x 0 then (if 0 <? y then Num 0 else NaN)
  else if Req_b (IZR (Int_part y)) y then Num (powerRZ x (Int_part y))
  else NaN.

(** The interpretation over the reals, used to run the code on inputs. *)
#[export] Instance Reals_libm : Libm := {|
  np_exp := lift1 exp;
  np_sqrt := fun a =>
    match a with
    | Num x => real_sqrt x
    | NaN => NaN
    end;
  float_pow := fun a b =>
    match a, b with
    | Num x, Num y => real_pow x y
    | NaN, Num y => if Req_b y 0 then Num 1 else NaN
    | Num x, NaN => if Req_b x 1 then Num 1 else NaN
    | NaN, NaN => NaN
    end
|}.

(** [a[i]] on a one-dimensional array: a negative index counts from the
    end, an index outside the array raises. *)
Definition getitem {A : Type} (a : list A) (i : Z) : result A :=
  let n := Z.of_nat (length a) in
  let i' := if (i <? 0)%Z then (i + n)%Z else i in
  if ((0 <=? i') && (i' <? n))%Z then
    match nth_error a (Z.to_nat i') with
    | Some v => ret v
    | None => raise IndexError
    end
  else raise IndexError.

(** [range(n)] *)
Definition range (n : Z) : list Z := map Z.of_nat (seq 0 (Z.to_nat n)).

(** [for i in idx: body], threading the variables the body assigns. *)
Fixpoint for_each {S : Type} (idx : list Z) (body : Z -> S -> result S)
    (s : S) : result S :=
  match idx with
  | [] => ret s
  | i :: rest => s' <- body i s ;; for_each rest body s'
  end.

(** [np.size] and [np.sum] of a one-dimensional array. *)
Definition np_size {A : Type} (a : list A) : Z := Z.of_nat (length a).

Definition np_sum (a : list R) : R := fold_left Rplus a 0.

(** [np.zeros((n, m))] *)
Definition np_zeros2 (n m : Z) : result (list (list R)) :=
  if ((n <? 0) || (m <? 0))%Z then raise ValueError
  else ret (repeat (repeat 0 (Z.to_nat m)) (Z.to_nat n)).

(** In-place update [a[i] = v]; no negative index reaches it. *)
Fixpoint set_nth {A : Type} (a : list A) (i : nat) (v : A) : option (list A) :=
  match a, i with
  | [], _ => None
  | _ :: rest, O => Some (v :: rest)
  | h :: rest, S i' => option_map (cons h) (set_nth rest i' v)
  end.

Definition setitem {A : Type} (a : list A) (i : Z) (v : A) : result (list A) :=
  if (i <? 0)%Z then raise IndexError
  else match set_nth a (Z.to_nat i) v with
       | Some a' => ret a'
       | None => raise IndexError
       end.

(** [a[j, i]] and [a[j, i] = v] on a two-dimensional array. *)
Definition getitem2 (a : list (list R)) (j i : Z) : result R :=
  row <- getitem a j ;; getitem row i.

Definition setitem2 (a : list (list R)) (j i : Z) (v : R)
  : result (list (list R)) :=
  row <- getitem a j ;;
  row' <- setitem row i v ;;
  setitem a j row'.

(** Arguments of a call: floats and ints. *)
Inductive value : Type :=
| Float (r : R)
| Int (z : Z).

Definition to_float (v : value) : R :=
  match v with
  | Float r => r
  | Int z => IZR z
  end.

(** A call [self.m(args)] of a method declared [def m(self, x)]: the
    positional arguments are bound to the one parameter, and any other
    number of them raises. *)
Definition call_method1 {A : Type} (m : R -> result A) (args : list value)
  : result A :=
  match args with
  | [x] => m (to_float x)
  | _ => raise TypeError
  end.

(** Reading a local name that an [if]/[elif] chain may have left unbound. *)
Definition read_local {A : Type} (v : option A) : result A :=
  match v with
  | Some a => ret a
  | None => raise UnboundLocalError
  end.

(** The value a call returns, 0 standing in where it raises. *)
Definition value_of (r : result R) : R :=
  match r with
  | inr v => v
  | inl _ => 0
  end.

(** Modelled from the spec: [utils.geometric.get_circle_area] is missing;
    the spec uses it as the flow cross-section of a core of the given
    diameter, the area of the circle. *)
Definition get_circle_area (diameter : R) : R := PI * diameter ^ 2 / 4.

(** [np.where(mask)[0]] for the mask [p] over a one-dimensional array: the
    indices of the entries that satisfy [p], counted from [i]. *)
Fixpoint np_where_from (p : R -> bool) (a : list R) (i : Z) : list Z :=
  match a with
  | [] => []
  | v :: rest =>
      if p v then i :: np_where_from p rest (i + 1)
      else np_where_from p rest (i + 1)
  end.

Definition np_where (p : R -> bool) (a : list R) : list Z :=
  np_where_from p a 0.

(** [np.mean] of a one-dimensional array. *)
Definition np_mean (a : list fval) : fval :=
  (fold_left fadd a (Num 0) / INR (length a))%fv.

(** [np.zeros(n)] *)
Definition np_zeros (n : Z) : list fval := repeat (Num 0) (Z.to_nat n).

(** Reading a global name: the module's namespace holds the names its
    imports and its [def]s bind; any other name raises.  [binding] is what
    the name stands for where it is bound. *)
Definition load_global {A : Type} (globals : list String.string)
    (name : String.string) (binding : A) : result A :=
  if existsb (String.eqb name) globals then ret binding
  else raise NameError.

(** ** rocketsolver.models.propulsion.grain.fmm *)

Module FMM.

(** The fields [__init__] sets; the cache fields start as [None] and are
    not read by the methods below. *)
Record FMMGrainSegment : Type := {
  map_dim : Z;
  length : R;
  outer_diameter : R;
  spacing : R;
  inhibited_ends : Z
}.

Definition set_map_dim (self : FMMGrainSegment) (v : Z) : FMMGrainSegment :=
  {| map_dim := v;
     length := length self;
     outer_diameter := outer_diameter self;
     spacing := spacing self;
     inhibited_ends := inhibited_ends self |}.

(** The parent class [GrainSegment] lives in the enclosing package: its
    [validate] is a method of the interface, returning the instance as it
    leaves it or the exception it raises. *)
Class GrainSegment : Type := {
  super_validate : FMMGrainSegment -> result FMMGrainSegment
}.

(** Modelled from the spec: the parent's [validate] is missing; the spec
    has validation fail with the geometry error when dimensions are
    non-physical (non-positive lengths or diameters). *)
Definition GrainSegment_validate (self : FMMGrainSegment)
  : result FMMGrainSegment :=
  if (0 <? length self) && (0 <? outer_diameter self) then ret self
  else raise GrainGeometryError.

Definition Spec_GrainSegment : GrainSegment :=
  {| super_validate := GrainSegment_validate |}.

(** Modelled from the spec: the decorator [validate_assertions] is
    missing; a failed assertion of the decorated method surfaces as the
    exception given to the decorator. *)
Definition validate_assertions {A B : Type} (exception : exn)
    (f : A -> result B) (self : A) : result B :=
  match f self with
  | inl AssertionError => raise exception
  | r => r
  end.

(** The body of [validate]: the final state of [self]. *)
Definition validate_body `{GrainSegment} (self : FMMGrainSegment)
  : result FMMGrainSegment :=
  self <- super_validate self ;;
  _ <- py_assert (100 <=? map_dim self)%Z ;;
  ret (set_map_dim self 10).

Definition validate `{GrainSegment} : FMMGrainSegment -> result FMMGrainSegment :=
  validate_assertions GrainGeometryError validate_body.

(** The two conversions over the reals; [FMM64] has them in binary64. *)
Definition normalize (self : FMMGrainSegment) (value : R) : R :=
  value / (0.5 * outer_diameter self).

Definition denormalize (self : FMMGrainSegment) (value : R) : R :=
  (value / 2) * outer_diameter self.

(** A segment of 115 mm at the smallest resolution [validate] accepts. *)
Definition segment_100 : FMMGrainSegment :=
  {| map_dim := 100;
     length := 0.2;
     outer_diameter := 0.115;
     spacing := 0.01;
     inhibited_ends := 0 |}.

End FMM.

(** The grain segment with its lengths as binary64 floats, and the two
    conversions as the interpreter evaluates them. *)
Module FMM64.

Record FMMGrainSegment : Type := {
  map_dim : Z;
  length : float;
  outer_diameter : float;
  spacing : float;
  inhibited_ends : Z
}.

Definition normalize (self : FMMGrainSegment) (value : float) : float :=
  (value / (0.5 * outer_diameter self))%float.

Definition denormalize (self : FMMGrainSegment) (value : float) : float :=
  ((value / 2) * outer_diameter self)%float.

(** The 115 mm segment. *)
Definition segment_100 : FMMGrainSegment :=
  {| map_dim := 100;
     length := 0.2;
     outer_diameter := 0.115;
     spacing := 0.01;
     inhibited_ends := 0 |}.

End FMM64.

(** ** srm_solver.models.motor.bates *)

Module Bates.

Record Bates : Type := {
  segment_count : Z;
  segment_spacing : R;
  outer_diameter : R;
  core_diameter : list R;
  segment_length : list R
}.

(** [x ** 2] is written [x ^ 2]. *)
Definition get_burn_area_per_segment (self : Bates) (segment_index : Z)
    (web_thickness : R) : result R :=
  let D_grain := outer_diameter self in
  let D_core := core_diameter self in
  let L_grain := segment_length self in
  d <- getitem D_core segment_index ;;
  if 0.5 * (D_grain - d) >=? web_thickness then
    l <- getitem L_grain segment_index ;;
    ret (PI * ((D_grain ^ 2 - (d + 2 * web_thickness) ^ 2) / 2
               + (l - 2 * web_thickness) * (d + 2 * web_thickness)))
  else ret 0.

Definition get_burn_area (self : Bates) (x : R) : result R :=
  burn_areas <-
    for_each (range (segment_count self))
      (fun i burn_areas =>
         a <- get_burn_area_per_segment self i x ;;
         ret (burn_areas ++ [a]))
      [] ;;
  ret (np_sum burn_areas).

Definition get_propellant_volume_per_segment (self : Bates) (x : R) (j : Z)
  : result R :=
  let D_grain := outer_diameter self in
  let D_core := core_diameter self in
  let L_grain := segment_length self in
  d <- getitem D_core j ;;
  if 0.5 * (D_grain - d) >=? x then
    l <- getitem L_grain j ;;
    ret ((PI / 4) * ((D_grain ^ 2 - (d + 2 * x) ^ 2) * (l - 2 * x)))
  else ret 0.

(** The two arrays the loops of [get_mass_flux_per_segment] update. *)
Definition flux_state : Type := (list (list R) * list (list R))%type.

(** The loop over [k]: the call hands [x[i]] and [k] to [get_burn_area]. *)
Definition accumulate_burn_area (self : Bates) (x : list R) (j i : Z)
    (k : Z) (st : flux_state) : result flux_state :=
  let '(segment_mass_flux, total_grain_Ab) := st in
  a <- getitem2 total_grain_Ab j i ;;
  xi <- getitem x i ;;
  b <- call_method1 (get_burn_area self) [Float xi; Int k] ;;
  total_grain_Ab <- setitem2 total_grain_Ab j i (a + b) ;;
  ret (segment_mass_flux, total_grain_Ab).

(** The body of the loop over [i]. *)
Definition flux_at (self : Bates) (burn_rate : list R)
    (propellant_density : R) (x : list R) (j i : Z) (st : flux_state)
  : result flux_state :=
  st <- for_each (range (j + 1)) (accumulate_burn_area self x j i) st ;;
  let '(segment_mass_flux, total_grain_Ab) := st in
  a <- getitem2 total_grain_Ab j i ;;
  r <- getitem burn_rate i ;;
  segment_mass_flux <-
    setitem2 segment_mass_flux j i (a * propellant_density * r) ;;
  f <- getitem2 segment_mass_flux j i ;;
  d <- getitem (core_diameter self) j ;;
  xi <- getitem x i ;;
  segment_mass_flux <-
    setitem2 segment_mass_flux j i (f / get_circle_area (d + xi)) ;;
  ret (segment_mass_flux, total_grain_Ab).

Definition get_mass_flux_per_segment (self : Bates) (burn_rate : list R)
    (propellant_density : R) (x : list R) : result (list (list R)) :=
  segment_mass_flux <- np_zeros2 (segment_count self) (np_size x) ;;
  segment_mass_flux <- np_zeros2 (segment_count self) (np_size x) ;;
  total_grain_Ab <- np_zeros2 (segment_count self) (np_size x) ;;
  st <-
    for_each (range (segment_count self))
      (fun j =>
         for_each (range (np_size burn_rate))
           (flux_at self burn_rate propellant_density x j))
      (segment_mass_flux, total_grain_Ab) ;;
  ret (fst st).

(** Following the spec's words: the flux of segment [j] at time index
    [i] accumulates the per-segment burn area of the segments [0..j] at
    web [x[i]], times density and burn rate, over the core area. *)
Definition mass_flux_spec (self : Bates) (burn_rate : list R)
    (propellant_density : R) (x : list R) (j i : Z) : result R :=
  xi <- getitem x i ;;
  r <- getitem burn_rate i ;;
  d <- getitem (core_diameter self) j ;;
  total <-
    for_each (range (j + 1))
      (fun k acc =>
         a <- get_burn_area_per_segment self k xi ;; ret (acc + a))
      0 ;;
  ret (total * propellant_density * r / get_circle_area (d + xi)).

(** The segment of the spec's scenarios: 115 mm outside, a 45 mm core,
    200 mm long. *)
Definition scenario : Bates :=
  {| segment_count := 1;
     segment_spacing := 0;
     outer_diameter := 0.115;
     core_diameter := [0.045];
     segment_length := [0.2] |}.


Definition get_propellant_volume (self : Bates) (x : R) : result R :=
  prop_volume <-
    for_each (range (segment_count self))
      (fun i prop_volume =>
         v <- get_propellant_volume_per_segment self x i ;;
         ret (prop_volume ++ [v]))
      [] ;;
  ret (np_sum prop_volume).

Definition get_burn_profile (A_burn : list R) : result String.string :=
  first <- getitem A_burn 0 ;;
  last <- getitem A_burn (-1) ;;
  if first / last >? 1.02 then ret "regressive"%string
  else if first / last <? 0.98 then ret "progressive"%string
  else ret "neutral"%string.

End Bates.

(** ** srm_solver.functions.isentropic_flow *)

Module IsentropicFlow.

(** The names the module binds: its one import and its own functions.
    [scipy] and [get_circle_area] are not among them. *)
Definition module_globals : list String.string :=
  [ "np"%string;
    "get_critical_pressure"%string;
    "get_opt_expansion_ratio"%string;
    "get_exit_mach"%string;
    "get_exit_pressure"%string;
    "get_thrust_coeff"%string;
    "get_impulses"%string;
    "get_operational_correction_factors"%string;
    "get_expansion_ratio"%string ].

(** What [scipy.optimize.fsolve] works out for a residual function and a
    starting point: the last iterate [sol] and the status [ier], which is
    1 exactly when the iteration converged.  Called as the code calls it
    (no [full_output]), [fsolve] hands back [sol] alone, whatever [ier]
    is. *)
Record fsolve_info : Type := {
  sol : list R;
  ier : Z
}.

Class Scipy : Type := {
  fsolve : (R -> fval) -> list R -> fsolve_info
}.

(** The attributes of [propellant] and [structure] the functions read. *)
Record Propellant : Type := {
  Isp_frozen : R;
  Isp_shifting : R;
  qsi_ch : R;
  M_ch : R
}.

Record Structure : Type := {
  C1 : R;
  C2 : R;
  D_throat : R;
  Exp_ratio : R
}.

(** The function whose zero [get_exit_mach] asks for. *)
Definition exit_mach_residual `{Libm} (k E : R) (x : R) : fval :=
  ((((1 + 0.5 * (k - 1) * x ^ 2) / (1 + 0.5 * (k - 1)))
      ** ((k + 1) / (2 * (k - 1)))) / x - E)%fv.

(** The call starts by reading the global name [scipy]. *)
Definition get_exit_mach `{Libm} `{Scipy} (k E : R) : result R :=
  scipy_optimize_fsolve <- load_global module_globals "scipy"%string fsolve ;;
  let M_exit := sol (scipy_optimize_fsolve (exit_mach_residual k E) [10]) in
  getitem M_exit 0.

Definition get_exit_pressure `{Libm} `{Scipy} (k_2ph_ex E P0 : R)
  : result fval :=
  Mach_exit <- get_exit_mach k_2ph_ex E ;;
  let P_exit :=
    (P0 * (1 + 0.5 * (k_2ph_ex - 1) * Mach_exit ^ 2)
            ** (- k_2ph_ex / (k_2ph_ex - 1)))%fv in
  ret P_exit.

Definition get_thrust_coeff `{Libm} (P0 P_exit P_external E k n_cf : R)
  : fval * fval :=
  let P_r := P_exit / P0 in
  let Cf_ideal :=
    np_sqrt ((2 * (k ^ 2) / (k - 1))
             * ((2 / (k + 1)) ** ((k + 1) / (k - 1)))
             * (1 - (P_r ** ((k - 1) / k))))%fv in
  let Cf := ((Cf_ideal + E * (P_exit - P_external) / P0) * n_cf)%fv in
  let Cf := if (Cf <=? 0)%fv then Num 0 else Cf in
  let Cf_ideal := if (Cf_ideal <=? 0)%fv then Num 0 else Cf_ideal in
  (Cf, Cf_ideal).

(** The table of constants: [C4], and [C3, C5, C6] together, each left
    unbound where no branch of the chain assigns it. *)
Definition lookup_constants (M_ch D_throat : R) (C7 : fval)
  : option R * option (R * R * R) :=
  if 1 / M_ch >=? 0.9 then
    (Some 0.5,
     if D_throat / 0.0254 <? 1 then Some (9, 1, 1)
     else if (1 <=? D_throat / 0.0254) && (D_throat / 0.0254 <? 2) then
       Some (9, 1, 0.8)
     else if D_throat / 0.0254 >=? 2 then
       if (C7 <? 4)%fv then Some (13.4, 0.8, 0.8)
       else if (4 <=? C7)%fv && (C7 <=? 8)%fv then Some (10.2, 0.8, 0.4)
       else if (C7 >? 8)%fv then Some (7.58, 0.8, 0.33)
       else None
     else None)
  else if 1 / M_ch <? 0.9 then
    (Some 1,
     if D_throat / 0.0245 <? 1 then Some (44.5, 0.8, 0.8)
     else if (1 <=? D_throat / 0.0254) && (D_throat / 0.0254 <? 2) then
       Some (30.4, 0.8, 0.4)
     else if D_throat / 0.0254 >=? 2 then
       if (C7 <? 4)%fv then Some (44.5, 0.8, 0.8)
       else if (4 <=? C7)%fv && (C7 <=? 8)%fv then Some (30.4, 0.8, 0.4)
       else if (C7 >? 8)%fv then Some (25.2, 0.8, 0.33)
       else None
     else None)
  else (None, None).

(** Following the spec's words: the same table with every conversion of
    the throat diameter to inches dividing by 0.0254. *)
Definition lookup_constants_spec (M_ch D_throat : R) (C7 : fval)
  : option R * option (R * R * R) :=
  let D_throat_in := D_throat / 0.0254 in
  if 1 / M_ch >=? 0.9 then
    (Some 0.5,
     if D_throat_in <? 1 then Some (9, 1, 1)
     else if (1 <=? D_throat_in) && (D_throat_in <? 2) then Some (9, 1, 0.8)
     else if D_throat_in >=? 2 then
       if (C7 <? 4)%fv then Some (13.4, 0.8, 0.8)
       else if (4 <=? C7)%fv && (C7 <=? 8)%fv then Some (10.2, 0.8, 0.4)
       else if (C7 >? 8)%fv then Some (7.58, 0.8, 0.33)
       else None
     else None)
  else if 1 / M_ch <? 0.9 then
    (Some 1,
     if D_throat_in <? 1 then Some (44.5, 0.8, 0.8)
     else if (1 <=? D_throat_in) && (D_throat_in <? 2) then
       Some (30.4, 0.8, 0.4)
     else if D_throat_in >=? 2 then
       if (C7 <? 4)%fv then Some (44.5, 0.8, 0.8)
       else if (4 <=? C7)%fv && (C7 <=? 8)%fv then Some (30.4, 0.8, 0.4)
       else if (C7 >? 8)%fv then Some (25.2, 0.8, 0.33)
       else None
     else None)
  else (None, None).

(** [x ** - 9] is written [powerRZ x (-9)].  Line 108 reads the global
    name [get_circle_area] on its way to [C7]. *)
Definition get_operational_correction_factors `{Libm}
    (P0 P_external P0_psi : R) (propellant : Propellant)
    (structure : Structure) (critical_pressure_ratio V0 t : R)
  : result (R * fval * fval) :=
  let n_kin :=
    if P0_psi >=? 200 then
      33.3 * 200 * (Isp_frozen propellant / Isp_shifting propellant)
      / P0_psi
    else 0 in
  if P_external / P0 <=? critical_pressure_ratio then
    let termC2 :=
      (1 + 2 * np_exp (- C2 structure * P0_psi ** 0.8 * t
                       / ((D_throat structure / 0.0254) ** 0.2)))%fv in
    let E_cf := 1 + 0.016 * powerRZ (Exp_ratio structure) (-9) in
    let n_bl :=
      (C1 structure
       * ((P0_psi ** 0.8) / ((D_throat structure / 0.0254) ** 0.2))
       * termC2 * E_cf)%fv in
    get_circle_area <-
      load_global module_globals "get_circle_area"%string get_circle_area ;;
    let C7 :=
      (0.454 * (P0_psi ** 0.33) * (qsi_ch propellant ** 0.33)
       * (1 - np_exp (- 0.004
                      * (V0 / get_circle_area (D_throat structure))
                      / 0.0254)
              * (1 + 0.045 * D_throat structure / 0.0254)))%fv in
    let '(C4, C356) :=
      lookup_constants (M_ch propellant) (D_throat structure) C7 in
    '(C3, C5, C6) <- read_local C356 ;;
    C4 <- read_local C4 ;;
    let n_tp :=
      (C3 * ((qsi_ch propellant * C4 * C7 ** C5)
             / (P0_psi ** 0.15 * Exp_ratio structure ** 0.08
                * (D_throat structure / 0.0254) ** C6)))%fv in
    ret (n_kin, n_tp, n_bl)
  else
    let n_tp := Num 0 in
    let n_bl := Num 0 in
    ret (n_kin, n_tp, n_bl).


(** A propellant with [1 / M_ch = 0.5] and a nozzle with a 25 mm
    throat. *)
Definition propellant_2 : Propellant :=
  {| Isp_frozen := 150; Isp_shifting := 153; qsi_ch := 0.3; M_ch := 2 |}.

Definition throat_25mm : Structure :=
  {| C1 := 0.00506; C2 := 0.0; D_throat := 0.025; Exp_ratio := 8 |}.

(** [t[t <= t_burnout]] keeps the entries under the mask; [m_prop[: n]]
    keeps the first [n] entries. *)
Definition get_impulses (F_avg : R) (t : list R) (t_burnout : R)
    (m_prop : list R) : result (R * R) :=
  let t := filter (fun v => v <=? t_burnout) t in
  let index := np_where (fun v => Req_b v t_burnout) t in
  i0 <- getitem index 0 ;;
  let m_prop := firstn (Z.to_nat i0) m_prop in
  t_last <- getitem t (-1) ;;
  let I_total := F_avg * t_last in
  m0 <- getitem m_prop 0 ;;
  let I_sp := I_total / (m0 * 9.81) in
  ret (I_total, I_sp).

(** The body of the loop of [get_expansion_ratio]; [x ** -1] is written
    [fpowZ x (-1)]. *)
Definition expansion_ratio_at `{Libm} (Pe : R) (P0 : list R)
    (k critical_pressure_ratio : R) (i : Z) (E : list fval)
  : result (list fval) :=
  p <- getitem P0 i ;;
  if Pe / p <=? critical_pressure_ratio then
    let pressure_ratio := Pe / p in
    setitem E i
      (fpowZ
         (((k + 1) / 2) ** (1 / (k - 1)) * pressure_ratio ** (1 / k)
          * ((k + 1) / (k - 1)
             * (1 - pressure_ratio ** ((k - 1) / k))) ** 0.5)%fv
         (-1))
  else setitem E i (Num 1).

Definition get_expansion_ratio `{Libm} (Pe : R) (P0 : list R)
    (k critical_pressure_ratio : R) : result fval :=
  let E := np_zeros (np_size P0) in
  E <- for_each (range (np_size P0))
         (expansion_ratio_at Pe P0 k critical_pressure_ratio) E ;;
  ret (np_mean E).

End IsentropicFlow.

(** * Properties *)

(** ** Runtime *)

(** Decimal literals are rationals injected into [R]; [decimals] exposes
    numerator and denominator to [field] and [nra]. *)
Ltac decimals := unfold Q2R in *; cbn [QArith_base.Qnum QArith_base.Qden] in *.

Lemma Rle_b_true (a b : R) : (a <=? b) = true <-> a <= b.
Proof. unfold Rle_b; destruct (Rle_dec a b); split; intros; try easy; lra. Qed.

Lemma Rle_b_false (a b : R) : (a <=? b) = false <-> b < a.
Proof. unfold Rle_b; destruct (Rle_dec a b); split; intros; try easy; lra. Qed.

Lemma Rlt_b_true (a b : R) : (a <? b) = true <-> a < b.
Proof. unfold Rlt_b; destruct (Rlt_dec a b); split; intros; try easy; lra. Qed.

Lemma Rlt_b_false (a b : R) : (a <? b) = false <-> b <= a.
Proof. unfold Rlt_b; destruct (Rlt_dec a b); split; intros; try easy; lra. Qed.

Lemma Rge_b_true (a b : R) : (a >=? b) = true <-> b <= a.
Proof. apply Rle_b_true. Qed.

Lemma Rge_b_false (a b : R) : (a >=? b) = false <-> a < b.
Proof. apply Rle_b_false. Qed.

Lemma Rgt_b_true (a b : R) : (a >? b) = true <-> b < a.
Proof. apply Rlt_b_true. Qed.

Lemma Rgt_b_false (a b : R) : (a >? b) = false <-> a <= b.
Proof. apply Rlt_b_false. Qed.

Lemma bind_inr {A B : Type} (m : result A) (k : A -> result B) (b : B) :
  bind m k = inr b -> exists a, m = inr a /\ k a = inr b.
Proof. destruct m as [e|a]; simpl; [discriminate | eauto]. Qed.

(** ** Floats that may be NaN *)



(** ** FMM grain segment *)

Lemma validate_assertions_inr {A B : Type} (e : exn) (f : A -> result B)
    (a : A) (b : B) :
  FMM.validate_assertions e f a = inr b -> f a = inr b.
Proof.
  unfold FMM.validate_assertions.
  destruct (f a) as [[]|b']; unfold raise; intros E; congruence.
Qed.

(** C1 (as the code has it): whenever [validate] returns, the parent's
    validation returned some state whose [map_dim] passed the assertion
    [map_dim >= 100], and the state [validate] leaves behind has
    [map_dim = 10]: the asserted bound does not hold on the instance after
    the call. *)
Theorem validate_overwrites_map_dim (G : FMM.GrainSegment)
    (self self' : FMM.FMMGrainSegment) :
  FMM.validate self = inr self' ->
  (exists mid, FMM.super_validate self = inr mid
               /\ (100 <= FMM.map_dim mid)%Z
               /\ self' = FMM.set_map_dim mid 10)
  /\ FMM.map_dim self' = 10%Z
  /\ ~ (FMM.map_dim self' >= 100)%Z.
Proof.
  intros V. apply validate_assertions_inr in V.
  unfold FMM.validate_body in V.
  apply bind_inr in V as (mid & Hsup & V).
  apply bind_inr in V as ([] & Hassert & V).
  injection V as <-.
  unfold py_assert in Hassert.
  destruct (100 <=? FMM.map_dim mid)%Z eqn:Hdim; [|discriminate].
  apply Z.leb_le in Hdim.
  split; [exists mid; auto|].
  simpl. split; [reflexivity | lia].
Qed.

Lemma segment_100_validates :
  @FMM.validate FMM.Spec_GrainSegment FMM.segment_100
  = inr (FMM.set_map_dim FMM.segment_100 10).
Proof.
  unfold FMM.validate, FMM.validate_assertions, FMM.validate_body.
  simpl. unfold FMM.GrainSegment_validate. simpl.
  assert (H1 : (0 <? 0.2) = true) by (apply Rlt_b_true; lra).
  assert (H2 : (0 <? 0.115) = true) by (apply Rlt_b_true; lra).
  rewrite H1, H2. reflexivity.
Qed.

Lemma validate_overwrites_map_dim_witness :
  @FMM.validate FMM.Spec_GrainSegment FMM.segment_100
  = inr (FMM.set_map_dim FMM.segment_100 10)
  /\ FMM.map_dim (FMM.set_map_dim FMM.segment_100 10) = 10%Z
  /\ ~ (FMM.map_dim (FMM.set_map_dim FMM.segment_100 10) >= 100)%Z.
Proof.
  split; [exact segment_100_validates|].
  exact (proj2 (validate_overwrites_map_dim FMM.Spec_GrainSegment
                  FMM.segment_100 _ segment_100_validates)).
Defined.

(** Below the resolution bound the assertion fails and the decorator
    turns it into the geometry error. *)
Lemma validate_rejects_low_resolution (G : FMM.GrainSegment)
    (self mid : FMM.FMMGrainSegment) :
  FMM.super_validate self = inr mid ->
  (FMM.map_dim mid < 100)%Z ->
  FMM.validate self = inl GrainGeometryError.
Proof.
  intros Hsup Hdim.
  unfold FMM.validate, FMM.validate_assertions, FMM.validate_body.
  rewrite Hsup. cbn [bind].
  destruct (Z.leb_spec 100 (FMM.map_dim mid)) as [Hle|_]; [lia|].
  reflexivity.
Qed.

(** C8 as stated fails: in binary64, on the 115 mm segment,
    [denormalize (normalize 0.0009)] is the double just below [0.0009],
    and [==] between the two is false. *)
Lemma round_trip_off_by_rounding :
  (FMM64.outer_diameter FMM64.segment_100 =? 0)%float = false
  /\ FMM64.denormalize FMM64.segment_100
       (FMM64.normalize FMM64.segment_100 0.0009%float)
     = 0x1.d7dbf487fcb91p-11%float
  /\ (FMM64.denormalize FMM64.segment_100
        (FMM64.normalize FMM64.segment_100 0.0009)
      =? 0.0009)%float = false.
Proof.
  split; [|split]; vm_compute; reflexivity.
Qed.

(** C8 (amended): in exact arithmetic, over the reals, [denormalize]
    undoes [normalize] for every [x] on a segment whose outer diameter is
    not zero. *)
Theorem denormalize_normalize (self : FMM.FMMGrainSegment) (x : R) :
  FMM.outer_diameter self <> 0 ->
  FMM.denormalize self (FMM.normalize self x) = x.
Proof.
  intros Hd. unfold FMM.denormalize, FMM.normalize. decimals. field. exact Hd.
Qed.

Lemma denormalize_normalize_witness :
  FMM.outer_diameter FMM.segment_100 <> 0
  /\ FMM.denormalize FMM.segment_100 (FMM.normalize FMM.segment_100 0.035)
     = 0.035.
Proof.
  assert (H : FMM.outer_diameter FMM.segment_100 <> 0) by (simpl; lra).
  split; [exact H | exact (denormalize_normalize FMM.segment_100 0.035 H)].
Defined.

(** ** Arrays and loops *)

Lemma getitem_0 {A : Type} (h : A) (t : list A) : getitem (h :: t) 0 = ret h.
Proof.
  unfold getitem. cbn [length Z.ltb Z.compare].
  destruct (Z.ltb_spec 0 (Z.of_nat (S (length t)))) as [_|Hn]; [reflexivity|lia].
Qed.

Lemma getitem_0_nonempty {A : Type} (a : list A) :
  a <> [] -> exists h, getitem a 0 = ret h.
Proof.
  destruct a as [|h t]; [congruence|]. intros _. exists h. apply getitem_0.
Qed.

Lemma range_pos (n : Z) :
  (1 <= n)%Z -> exists rest, range n = 0%Z :: rest.
Proof.
  intros Hn. unfold range.
  destruct (Z.to_nat n) as [|m] eqn:E; [lia|].
  simpl. eauto.
Qed.

Lemma np_size_pos {A : Type} (a : list A) : a <> [] -> (1 <= np_size a)%Z.
Proof.
  destruct a; [congruence|]. intros _. unfold np_size. simpl length. lia.
Qed.

Lemma np_zeros2_pos (n m : Z) :
  (1 <= n)%Z -> (1 <= m)%Z ->
  exists row rows, np_zeros2 n m = ret ((0 :: row) :: rows).
Proof.
  intros Hn Hm. unfold np_zeros2.
  destruct (Z.ltb_spec n 0); [lia|]. destruct (Z.ltb_spec m 0); [lia|].
  destruct (Z.to_nat n) as [|n'] eqn:En; [lia|].
  destruct (Z.to_nat m) as [|m'] eqn:Em; [lia|].
  simpl. eauto.
Qed.

(** ** BATES grain *)

Lemma Bates_scenario_core : getitem (Bates.core_diameter Bates.scenario) 0 = inr 0.045.
Proof. apply getitem_0. Qed.

Lemma Bates_scenario_length : getitem (Bates.segment_length Bates.scenario) 0 = inr 0.2.
Proof. apply getitem_0. Qed.

(** C2 as stated fails: on the segment of the spec's scenario, at the web
    distance [0.5 * (115e-3 - 45e-3)] where the wall is used up exactly,
    the guard of [get_burn_area_per_segment] still holds and the area
    formula is evaluated; the result is [pi * 0.13 * 0.115], not 0. *)
Lemma burn_area_nonzero_at_full_radial_burn :
  0.5 * (0.115 - 0.045)
    >= 0.5 * (Bates.outer_diameter Bates.scenario - 0.045)
  /\ Bates.get_burn_area_per_segment Bates.scenario 0 (0.5 * (0.115 - 0.045))
     = inr (PI * (0.13 * 0.115))
  /\ Bates.get_burn_area_per_segment Bates.scenario 0 (0.5 * (0.115 - 0.045))
     <> inr 0.
Proof.
  assert (E : Bates.get_burn_area_per_segment Bates.scenario 0
                (0.5 * (0.115 - 0.045)) = inr (PI * (0.13 * 0.115))).
  { unfold Bates.get_burn_area_per_segment.
    rewrite Bates_scenario_core, Bates_scenario_length. cbn [bind].
    replace (0.5 * (Bates.outer_diameter Bates.scenario - 0.045)
             >=? 0.5 * (0.115 - 0.045)) with true
      by (symmetry; apply Rge_b_true; simpl; lra).
    unfold ret. f_equal. simpl Bates.outer_diameter. decimals. field. }
  split; [simpl; lra|]. split; [exact E|].
  rewrite E. intros H. injection H as H.
  pose proof PI_RGT_0. lra.
Qed.

(** C2 (amended): once the web distance is strictly beyond the wall
    thickness [0.5 * (outer - core)] of the segment, burn area and
    propellant volume are exactly 0.  At the wall thickness itself the
    guard still holds and each function returns the value of its
    formula, not the literal 0. *)
Theorem exhausted_segment_is_zero (self : Bates.Bates) (j : Z) (web d : R) :
  getitem (Bates.core_diameter self) j = inr d ->
  (0.5 * (Bates.outer_diameter self - d) < web ->
     Bates.get_burn_area_per_segment self j web = inr 0
     /\ Bates.get_propellant_volume_per_segment self web j = inr 0)
  /\ (forall l, getitem (Bates.segment_length self) j = inr l ->
      web = 0.5 * (Bates.outer_diameter self - d) ->
      (0.5 * (Bates.outer_diameter self - d) >=? web) = true
      /\ Bates.get_burn_area_per_segment self j web
         = inr (PI * ((Bates.outer_diameter self ^ 2 - (d + 2 * web) ^ 2) / 2
                      + (l - 2 * web) * (d + 2 * web)))
      /\ Bates.get_propellant_volume_per_segment self web j
         = inr ((PI / 4)
                * ((Bates.outer_diameter self ^ 2 - (d + 2 * web) ^ 2)
                   * (l - 2 * web)))).
Proof.
  intros Hd.
  unfold Bates.get_burn_area_per_segment, Bates.get_propellant_volume_per_segment.
  rewrite Hd. cbn [bind]. split.
  - intros Hweb.
    replace (0.5 * (Bates.outer_diameter self - d) >=? web) with false
      by (symmetry; apply Rge_b_false; exact Hweb).
    split; reflexivity.
  - intros l Hl Hweb. rewrite Hl. cbn [bind].
    assert (Hguard : (0.5 * (Bates.outer_diameter self - d) >=? web) = true)
      by (apply Rge_b_true; lra).
    rewrite Hguard. repeat split; reflexivity.
Qed.

Lemma exhausted_segment_is_zero_witness :
  (Bates.get_burn_area_per_segment Bates.scenario 0 0.04 = inr 0
   /\ Bates.get_propellant_volume_per_segment Bates.scenario 0.04 0 = inr 0)
  /\ (0.5 * (Bates.outer_diameter Bates.scenario - 0.045)
      >=? 0.5 * (Bates.outer_diameter Bates.scenario - 0.045)) = true.
Proof.
  split.
  - apply (proj1 (exhausted_segment_is_zero Bates.scenario 0 0.04 0.045
                    Bates_scenario_core)).
    simpl. lra.
  - apply (proj2 (exhausted_segment_is_zero Bates.scenario 0
                    (0.5 * (Bates.outer_diameter Bates.scenario - 0.045))
                    0.045 Bates_scenario_core)
             0.2 Bates_scenario_length eq_refl).
Defined.


Lemma for_each_raises {S : Type} (i : Z) (rest : list Z)
    (body : Z -> S -> result S) (s : S) (e : exn) :
  body i s = inl e -> for_each (i :: rest) body s = inl e.
Proof. intros H. simpl. rewrite H. reflexivity. Qed.

(** The first pass through the innermost loop: the call
    [self.get_burn_area(x[i], k)] has two arguments for one parameter. *)
Lemma accumulate_burn_area_raises (self : Bates.Bates) (x : list R)
    (flux : list (list R)) (row : list R) (rows : list (list R)) (k : Z) :
  x <> [] ->
  Bates.accumulate_burn_area self x 0 0 k (flux, (0 :: row) :: rows)
  = inl TypeError.
Proof.
  intros Hx. destruct (getitem_0_nonempty x Hx) as [x0 Hx0].
  unfold Bates.accumulate_burn_area, getitem2.
  rewrite !getitem_0. cbn [bind ret]. rewrite Hx0. reflexivity.
Qed.

(** C3 (as the code has it): with at least one segment and non-empty
    [burn_rate] and [x], [get_mass_flux_per_segment] does not return: the
    first accumulation step raises [TypeError]. *)
Theorem get_mass_flux_per_segment_raises (self : Bates.Bates)
    (burn_rate : list R) (propellant_density : R) (x : list R) :
  (1 <= Bates.segment_count self)%Z ->
  burn_rate <> [] ->
  x <> [] ->
  Bates.get_mass_flux_per_segment self burn_rate propellant_density x
  = inl TypeError.
Proof.
  intros Hn Hb Hx.
  unfold Bates.get_mass_flux_per_segment.
  destruct (np_zeros2_pos _ _ Hn (np_size_pos x Hx)) as (row & rows & Hz).
  rewrite Hz. cbn [bind ret].
  destruct (range_pos _ Hn) as (js & ->).
  destruct (range_pos _ (np_size_pos burn_rate Hb)) as (is_ & ->).
  rewrite (for_each_raises _ _ _ _ TypeError); [reflexivity|].
  apply for_each_raises.
  unfold Bates.flux_at.
  change (range (0 + 1)) with [0%Z].
  rewrite (for_each_raises _ _ _ _ TypeError); [reflexivity|].
  apply accumulate_burn_area_raises, Hx.
Qed.

Lemma get_mass_flux_per_segment_raises_witness :
  Bates.get_mass_flux_per_segment Bates.scenario [0.005] 1800 [0]
  = inl TypeError.
Proof.
  apply get_mass_flux_per_segment_raises.
  - simpl. lia.
  - discriminate.
  - discriminate.
Defined.

Lemma for_each_skip {S : Type} (idx : list Z) (body : Z -> S -> result S)
    (s : S) :
  (forall i s', body i s' = ret s') -> for_each idx body s = ret s.
Proof.
  intros Hbody. induction idx as [|i rest IH]; [reflexivity|].
  simpl. rewrite Hbody. exact IH.
Qed.

(** With an empty [burn_rate] the loops do nothing and the array of zeros
    comes back: one row per segment, one column per entry of [x]. *)
Lemma get_mass_flux_per_segment_no_steps (self : Bates.Bates)
    (propellant_density : R) (x : list R) :
  (0 <= Bates.segment_count self)%Z ->
  Bates.get_mass_flux_per_segment self [] propellant_density x
  = inr (repeat (repeat 0 (length x)) (Z.to_nat (Bates.segment_count self))).
Proof.
  intros Hn. unfold Bates.get_mass_flux_per_segment, np_zeros2, np_size.
  destruct (Z.ltb_spec (Bates.segment_count self) 0); [lia|].
  destruct (Z.ltb_spec (Z.of_nat (length x)) 0); [lia|].
  cbn [orb bind ret]. rewrite Nat2Z.id.
  rewrite for_each_skip; [reflexivity|].
  intros j st. reflexivity.
Qed.

(** At the same input the flux the spec describes is defined: the burn
    area of the one segment at web 0, times density and burn rate, over
    the core area. *)
Lemma mass_flux_spec_scenario :
  Bates.mass_flux_spec Bates.scenario [0.005] 1800 [0] 0 0
  = inr ((0 + PI * ((0.115 ^ 2 - (0.045 + 2 * 0) ^ 2) / 2
                    + (0.2 - 2 * 0) * (0.045 + 2 * 0)))
         * 1800 * 0.005 / get_circle_area (0.045 + 0)).
Proof.
  unfold Bates.mass_flux_spec.
  rewrite !getitem_0. cbn [bind ret].
  rewrite Bates_scenario_core. cbn [bind].
  change (range (0 + 1)) with [0%Z]. cbn [for_each bind].
  unfold Bates.get_burn_area_per_segment.
  rewrite Bates_scenario_core, Bates_scenario_length. cbn [bind].
  replace (0.5 * (Bates.outer_diameter Bates.scenario - 0.045) >=? 0) with true
    by (symmetry; apply Rge_b_true; simpl; lra).
  reflexivity.
Qed.

(** ** Nozzle flow *)


(** C7: above the critical pressure ratio the call returns, with the
    two-phase and the boundary-layer loss both 0. *)
Theorem supercritical_losses_zero (L : Libm) (P0 P_external P0_psi : R)
    (propellant : IsentropicFlow.Propellant)
    (structure : IsentropicFlow.Structure)
    (critical_pressure_ratio V0 t : R) :
  P_external / P0 > critical_pressure_ratio ->
  exists n_kin,
    IsentropicFlow.get_operational_correction_factors
      P0 P_external P0_psi propellant structure critical_pressure_ratio V0 t
    = inr (n_kin, Num 0, Num 0).
Proof.
  intros Hcrit.
  unfold IsentropicFlow.get_operational_correction_factors.
  replace (P_external / P0 <=? critical_pressure_ratio) with false
    by (symmetry; apply Rle_b_false; lra).
  eexists. reflexivity.
Qed.

Lemma supercritical_losses_zero_witness :
  exists n_kin,
    IsentropicFlow.get_operational_correction_factors
      101325 101325 14.7 IsentropicFlow.propellant_2
      IsentropicFlow.throat_25mm 0.56 0.001 0
    = inr (n_kin, Num 0, Num 0).
Proof.
  apply supercritical_losses_zero. decimals. lra.
Defined.

(** The band tests of the second family of the table, where
    [1 / M_ch < 0.9]. *)
Lemma lookup_constants_gap (M_ch D_throat : R) (C7 : fval) :
  1 / M_ch < 0.9 ->
  0.0245 <= D_throat < 0.0254 ->
  IsentropicFlow.lookup_constants M_ch D_throat C7 = (Some 1, None).
Proof.
  intros HM [Hlo Hhi]. unfold IsentropicFlow.lookup_constants.
  replace (1 / M_ch >=? 0.9) with false
    by (symmetry; apply Rge_b_false; exact HM).
  replace (1 / M_ch <? 0.9) with true
    by (symmetry; apply Rlt_b_true; exact HM).
  replace (D_throat / 0.0245 <? 1) with false
    by (symmetry; apply Rlt_b_false; lra).
  replace (1 <=? D_throat / 0.0254) with false
    by (symmetry; apply Rle_b_false; lra).
  replace (D_throat / 0.0254 >=? 2) with false
    by (symmetry; apply Rge_b_false; lra).
  reflexivity.
Qed.

Lemma lookup_constants_spec_gap (M_ch D_throat : R) (C7 : fval) :
  1 / M_ch < 0.9 ->
  D_throat < 0.0254 ->
  IsentropicFlow.lookup_constants_spec M_ch D_throat C7
  = (Some 1, Some (44.5, 0.8, 0.8)).
Proof.
  intros HM Hhi. unfold IsentropicFlow.lookup_constants_spec.
  replace (1 / M_ch >=? 0.9) with false
    by (symmetry; apply Rge_b_false; exact HM).
  replace (1 / M_ch <? 0.9) with true
    by (symmetry; apply Rlt_b_true; exact HM).
  cbv zeta.
  replace (D_throat / 0.0254 <? 1) with true
    by (symmetry; apply Rlt_b_true; lra).
  reflexivity.
Qed.

(** Outside the band [0.0245 <= D_throat < 0.0254] the table of the code
    and the table with one divisor select the same constants. *)
Lemma lookup_constants_agree (M_ch D_throat : R) (C7 : fval) :
  D_throat < 0.0245 \/ 0.0254 <= D_throat ->
  IsentropicFlow.lookup_constants M_ch D_throat C7
  = IsentropicFlow.lookup_constants_spec M_ch D_throat C7.
Proof.
  intros HD.
  unfold IsentropicFlow.lookup_constants, IsentropicFlow.lookup_constants_spec.
  cbv zeta.
  destruct (1 / M_ch >=? 0.9); [reflexivity|].
  destruct (1 / M_ch <? 0.9); [|reflexivity].
  replace (D_throat / 0.0245 <? 1) with (D_throat / 0.0254 <? 1);
    [reflexivity|].
  destruct HD as [HD|HD].
  - transitivity true; [apply Rlt_b_true | symmetry; apply Rlt_b_true]; lra.
  - transitivity false; [apply Rlt_b_false | symmetry; apply Rlt_b_false]; lra.
Qed.

(** C4 (as the code has it): for a 25 mm throat and [1 / M_ch = 0.5] the
    first band test of the second family divides by 0.0245 and fails,
    where the division by 0.0254 used everywhere else succeeds; the table
    of the code selects no [C3, C5, C6], the table with the one divisor
    selects [44.5, 0.8, 0.8]. *)
Theorem lookup_constants_divisor_mismatch (C7 : R) :
  (0.025 / 0.0245 <? 1) = false
  /\ (0.025 / 0.0254 <? 1) = true
  /\ IsentropicFlow.lookup_constants 2 0.025 C7 = (Some 1, None)
  /\ IsentropicFlow.lookup_constants_spec 2 0.025 C7
     = (Some 1, Some (44.5, 0.8, 0.8)).
Proof.
  split; [apply Rlt_b_false; lra|].
  split; [apply Rlt_b_true; lra|].
  split.
  - apply lookup_constants_gap; lra.
  - apply lookup_constants_spec_gap; lra.
Qed.

(** The two names the module reads without binding them. *)
Lemma get_circle_area_unbound :
  existsb (String.eqb "get_circle_area"%string) IsentropicFlow.module_globals
  = false.
Proof. reflexivity. Qed.

Lemma scipy_unbound :
  existsb (String.eqb "scipy"%string) IsentropicFlow.module_globals = false.
Proof. reflexivity. Qed.

(** Under the critical ratio the call stops at line 108. *)
Lemma subcritical_raises_NameError (L : Libm) (P0 P_external P0_psi : R)
    (propellant : IsentropicFlow.Propellant)
    (structure : IsentropicFlow.Structure)
    (critical_pressure_ratio V0 t : R) :
  P_external / P0 <= critical_pressure_ratio ->
  IsentropicFlow.get_operational_correction_factors
    P0 P_external P0_psi propellant structure critical_pressure_ratio V0 t
  = inl NameError.
Proof.
  intros Hcrit. unfold IsentropicFlow.get_operational_correction_factors.
  replace (P_external / P0 <=? critical_pressure_ratio) with true
    by (symmetry; apply Rle_b_true; exact Hcrit).
  cbv zeta. unfold load_global. rewrite get_circle_area_unbound.
  reflexivity.
Qed.



Lemma getitem_raises_IndexError {A : Type} (a : list A) (i : Z) (e : exn) :
  getitem a i = inl e -> e = IndexError.
Proof.
  unfold getitem.
  destruct (_ && _)%bool; [destruct (nth_error _ _)|]; unfold ret, raise;
    congruence.
Qed.

(** The call stops at the read of [scipy]. *)
Lemma get_exit_mach_NameError (L : Libm) (S : IsentropicFlow.Scipy)
    (k E : R) :
  IsentropicFlow.get_exit_mach k E = inl NameError.
Proof.
  unfold IsentropicFlow.get_exit_mach, load_global.
  rewrite scipy_unbound. reflexivity.
Qed.



(** * Further properties *)

Lemma validate_rejects_low_resolution_witness :
  @FMM.validate FMM.Spec_GrainSegment (FMM.set_map_dim FMM.segment_100 99)
  = inl GrainGeometryError.
Proof.
  apply (validate_rejects_low_resolution FMM.Spec_GrainSegment
           (FMM.set_map_dim FMM.segment_100 99)
           (FMM.set_map_dim FMM.segment_100 99)).
  - simpl. unfold FMM.GrainSegment_validate. simpl.
    replace (0 <? 0.2) with true by (symmetry; apply Rlt_b_true; lra).
    replace (0 <? 0.115) with true by (symmetry; apply Rlt_b_true; lra).
    reflexivity.
  - simpl. lia.
Defined.

(** ** BATES grain: the formulas inside their range *)

(** What the two per-segment functions return while the guard holds. *)
Lemma per_segment_inside (self : Bates.Bates) (j : Z) (web d l : R) :
  getitem (Bates.core_diameter self) j = inr d ->
  getitem (Bates.segment_length self) j = inr l ->
  web <= 0.5 * (Bates.outer_diameter self - d) ->
  Bates.get_burn_area_per_segment self j web
  = inr (PI * ((Bates.outer_diameter self ^ 2 - (d + 2 * web) ^ 2) / 2
               + (l - 2 * web) * (d + 2 * web)))
  /\ Bates.get_propellant_volume_per_segment self web j
     = inr ((PI / 4) * ((Bates.outer_diameter self ^ 2 - (d + 2 * web) ^ 2)
                        * (l - 2 * web))).
Proof.
  intros Hd Hl Hweb.
  unfold Bates.get_burn_area_per_segment, Bates.get_propellant_volume_per_segment.
  rewrite Hd, Hl. cbn [bind].
  replace (0.5 * (Bates.outer_diameter self - d) >=? web) with true
    by (symmetry; apply Rge_b_true; exact Hweb).
  split; reflexivity.
Qed.

(** While a segment with a core of non-negative diameter is burned
    through neither radially nor axially, its propellant volume does not
    grow as the web advances. *)
Theorem propellant_volume_decreases (self : Bates.Bates) (j : Z)
    (w1 w2 d l : R) :
  getitem (Bates.core_diameter self) j = inr d ->
  getitem (Bates.segment_length self) j = inr l ->
  0 <= d -> 0 <= w1 -> w1 <= w2 ->
  w2 <= 0.5 * (Bates.outer_diameter self - d) ->
  2 * w2 <= l ->
  exists v1 v2,
    Bates.get_propellant_volume_per_segment self w1 j = inr v1
    /\ Bates.get_propellant_volume_per_segment self w2 j = inr v2
    /\ v2 <= v1.
Proof.
  intros Hd Hl Hd0 Hw1 Hw12 Hw2 Hax.
  destruct (per_segment_inside self j w1 d l Hd Hl) as [_ Hv1]; [lra|].
  destruct (per_segment_inside self j w2 d l Hd Hl Hw2) as [_ Hv2].
  eexists. eexists. split; [exact Hv1|]. split; [exact Hv2|].
  pose proof PI_RGT_0 as Hpi.
  set (D := Bates.outer_diameter self) in *.
  assert (Hu2 : 0 <= d + 2 * w2 <= D) by (decimals; lra).
  assert (Hs2 : 0 <= D ^ 2 - (d + 2 * w2) ^ 2) by nra.
  assert (Hs12 : D ^ 2 - (d + 2 * w2) ^ 2 <= D ^ 2 - (d + 2 * w1) ^ 2) by nra.
  assert (Hl12 : 0 <= l - 2 * w2 <= l - 2 * w1) by lra.
  apply Rmult_le_compat_l; [lra|].
  apply Rmult_le_compat; lra.
Qed.

Lemma propellant_volume_decreases_witness :
  exists v1 v2,
    Bates.get_propellant_volume_per_segment Bates.scenario 0.01 0 = inr v1
    /\ Bates.get_propellant_volume_per_segment Bates.scenario 0.02 0 = inr v2
    /\ v2 <= v1.
Proof.
  apply (propellant_volume_decreases Bates.scenario 0 0.01 0.02 0.045 0.2
           Bates_scenario_core Bates_scenario_length);
    simpl; lra.
Defined.

(** The volume formula as a function of the web, and its derivative. *)
Lemma volume_formula_derivative (D d l w0 : R) :
  derivable_pt_lim
    (fun w => (PI / 4) * ((D ^ 2 - (d + 2 * w) ^ 2) * (l - 2 * w)))
    w0
    (- (PI * ((D ^ 2 - (d + 2 * w0) ^ 2) / 2
              + (l - 2 * w0) * (d + 2 * w0)))).
Proof.
  pose (u := (fct_cte d + mult_real_fct 2 id)%F).
  pose (f1 := (fct_cte (D ^ 2) - comp (fun y => y ^ 2) u)%F).
  pose (f2 := (fct_cte l - mult_real_fct 2 id)%F).
  assert (Hu : derivable_pt_lim u w0 (0 + 2 * 1)).
  { apply derivable_pt_lim_plus.
    - apply derivable_pt_lim_const.
    - apply derivable_pt_lim_scal, derivable_pt_lim_id. }
  assert (H1 : derivable_pt_lim f1 w0
                 (0 - INR 2 * u w0 ^ Init.Nat.pred 2 * (0 + 2 * 1))).
  { apply derivable_pt_lim_minus.
    - apply derivable_pt_lim_const.
    - apply derivable_pt_lim_comp; [exact Hu | apply derivable_pt_lim_pow]. }
  assert (H2 : derivable_pt_lim f2 w0 (0 - 2 * 1)).
  { apply derivable_pt_lim_minus.
    - apply derivable_pt_lim_const.
    - apply derivable_pt_lim_scal, derivable_pt_lim_id. }
  pose proof (derivable_pt_lim_scal _ (PI / 4) _ _
                (derivable_pt_lim_mult _ _ _ _ _ H1 H2)) as H.
  apply (derivable_pt_lim_ext (mult_real_fct (PI / 4) (f1 * f2)%F)).
  - intros z. unfold mult_real_fct, mult_fct, f1, f2, u, minus_fct, plus_fct,
      fct_cte, comp, id. reflexivity.
  - replace (- (PI * ((D ^ 2 - (d + 2 * w0) ^ 2) / 2
                      + (l - 2 * w0) * (d + 2 * w0))))
      with (PI / 4
            * ((0 - INR 2 * u w0 ^ Init.Nat.pred 2 * (0 + 2 * 1)) * f2 w0
               + f1 w0 * (0 - 2 * 1))); [exact H|].
    unfold f1, f2, u, minus_fct, plus_fct, mult_real_fct, fct_cte, comp, id.
    simpl. field.
Qed.

(** Strictly inside the radial range of a segment, the burn area is the
    rate at which the propellant volume shrinks as the web advances: the
    derivative of [get_propellant_volume_per_segment] in the web is minus
    [get_burn_area_per_segment]. *)
Theorem burn_area_is_volume_rate (self : Bates.Bates) (j : Z) (w0 d l : R) :
  getitem (Bates.core_diameter self) j = inr d ->
  getitem (Bates.segment_length self) j = inr l ->
  w0 < 0.5 * (Bates.outer_diameter self - d) ->
  exists a,
    Bates.get_burn_area_per_segment self j w0 = inr a
    /\ derivable_pt_lim
         (fun w => value_of (Bates.get_propellant_volume_per_segment self w j))
         w0 (- a).
Proof.
  intros Hd Hl Hw.
  destruct (per_segment_inside self j w0 d l Hd Hl) as [Ha _]; [lra|].
  eexists. split; [exact Ha|].
  apply (derivable_pt_lim_locally_ext
           (fun w => (PI / 4) * ((Bates.outer_diameter self ^ 2
                                   - (d + 2 * w) ^ 2) * (l - 2 * w)))
           _ w0 (w0 - 1) (0.5 * (Bates.outer_diameter self - d))).
  - lra.
  - intros z [_ Hz].
    destruct (per_segment_inside self j z d l Hd Hl) as [_ Hv]; [lra|].
    rewrite Hv. reflexivity.
  - apply volume_formula_derivative.
Qed.

Lemma burn_area_is_volume_rate_witness :
  exists a,
    Bates.get_burn_area_per_segment Bates.scenario 0 0.01 = inr a
    /\ derivable_pt_lim
         (fun w =>
            value_of (Bates.get_propellant_volume_per_segment Bates.scenario w 0))
         0.01 (- a).
Proof.
  apply (burn_area_is_volume_rate Bates.scenario 0 0.01 0.045 0.2
           Bates_scenario_core Bates_scenario_length).
  simpl. lra.
Defined.

(** ** BATES grain: the whole stack *)

Lemma In_range (n i : Z) : In i (range n) -> (0 <= i < n)%Z.
Proof.
  unfold range. intros H. apply in_map_iff in H as (m & <- & Hm).
  apply in_seq in Hm. lia.
Qed.

Lemma range_In (n i : Z) : (0 <= i < n)%Z -> In i (range n).
Proof.
  intros H. unfold range. apply in_map_iff. exists (Z.to_nat i).
  split; [lia|]. apply in_seq. lia.
Qed.

Lemma getitem_in_bounds {A : Type} (a : list A) (i : Z) :
  (0 <= i < np_size a)%Z -> exists v, getitem a i = inr v /\ In v a.
Proof.
  unfold np_size, getitem. intros Hi.
  destruct (Z.ltb_spec i 0); [lia|].
  destruct (Z.leb_spec 0 i); [|lia].
  destruct (Z.ltb_spec i (Z.of_nat (length a))); [|lia].
  cbn [andb].
  destruct (nth_error a (Z.to_nat i)) as [v|] eqn:E.
  - exists v. split; [reflexivity|]. eapply nth_error_In; eauto.
  - apply nth_error_None in E. lia.
Qed.

Lemma getitem_beyond {A : Type} (a : list A) (i : Z) :
  (np_size a <= i)%Z -> getitem a i = inl IndexError.
Proof.
  unfold np_size, getitem. intros Hi.
  destruct (Z.ltb_spec i 0); [lia|].
  destruct (Z.ltb_spec i (Z.of_nat (length a))); [lia|].
  rewrite andb_false_r. reflexivity.
Qed.

Lemma np_sum_zeros (n : nat) : np_sum (repeat 0 n) = 0.
Proof.
  unfold np_sum. induction n as [|n IH]; [reflexivity|].
  simpl. rewrite Rplus_0_l. exact IH.
Qed.

(** A loop that appends one value per index, each of them 0. *)
Lemma for_each_append_zeros (f : Z -> result R) (idx : list Z) (acc : list R) :
  (forall i, In i idx -> f i = inr 0) ->
  for_each idx (fun i acc => a <- f i ;; ret (acc ++ [a])) acc
  = inr (acc ++ repeat 0 (Datatypes.length idx)).
Proof.
  revert acc. induction idx as [|i rest IH]; intros acc Hf.
  - simpl. rewrite app_nil_r. reflexivity.
  - simpl. rewrite (Hf i) by (left; reflexivity). cbn [bind ret].
    rewrite IH by (intros k Hk; apply Hf; right; exact Hk).
    rewrite <- app_assoc. reflexivity.
Qed.

(** A loop whose body can only raise [IndexError], and does raise at one
    of its indices, raises [IndexError]. *)
Lemma for_each_IndexError {S : Type} (body : Z -> S -> result S)
    (idx : list Z) (k : Z) (s : S) :
  (forall i s' e, body i s' = inl e -> e = IndexError) ->
  (forall s', body k s' = inl IndexError) ->
  In k idx ->
  for_each idx body s = inl IndexError.
Proof.
  intros Honly Hk. revert s. induction idx as [|i rest IH]; intros s Hin.
  - destruct Hin.
  - simpl. destruct (body i s) as [e|s'] eqn:E.
    + apply Honly in E. subst e. reflexivity.
    + cbn [bind]. destruct Hin as [->|Hin].
      * rewrite Hk in E. discriminate.
      * apply IH, Hin.
Qed.

Lemma per_segment_outside (self : Bates.Bates) (j : Z) (web d : R) :
  getitem (Bates.core_diameter self) j = inr d ->
  0.5 * (Bates.outer_diameter self - d) < web ->
  Bates.get_burn_area_per_segment self j web = inr 0
  /\ Bates.get_propellant_volume_per_segment self web j = inr 0.
Proof.
  intros Hd Hweb.
  unfold Bates.get_burn_area_per_segment, Bates.get_propellant_volume_per_segment.
  rewrite Hd. cbn [bind].
  replace (0.5 * (Bates.outer_diameter self - d) >=? web) with false
    by (symmetry; apply Rge_b_false; exact Hweb).
  split; reflexivity.
Qed.

Lemma per_segment_raises_IndexError (self : Bates.Bates) (j : Z) (web : R)
    (e : exn) :
  (Bates.get_burn_area_per_segment self j web = inl e -> e = IndexError)
  /\ (Bates.get_propellant_volume_per_segment self web j = inl e
      -> e = IndexError).
Proof.
  unfold Bates.get_burn_area_per_segment, Bates.get_propellant_volume_per_segment.
  destruct (getitem (Bates.core_diameter self) j) as [e1|d] eqn:Hd.
  - apply getitem_raises_IndexError in Hd. subst e1.
    split; cbn [bind]; congruence.
  - cbn [bind]. destruct (_ >=? _).
    + destruct (getitem (Bates.segment_length self) j) as [e2|l] eqn:Hl.
      * apply getitem_raises_IndexError in Hl. subst e2.
        split; cbn [bind]; congruence.
      * split; cbn [bind]; unfold ret; intros; discriminate.
    + split; unfold ret; intros; discriminate.
Qed.

(** Once the web distance is beyond the wall thickness of every segment,
    the burn area and the propellant volume of the whole stack are 0,
    provided [core_diameter] has an entry for each of the [segment_count]
    segments. *)
Theorem exhausted_stack_is_zero (self : Bates.Bates) (x : R) :
  (Bates.segment_count self <= np_size (Bates.core_diameter self))%Z ->
  (forall d, In d (Bates.core_diameter self) ->
             0.5 * (Bates.outer_diameter self - d) < x) ->
  Bates.get_burn_area self x = inr 0
  /\ Bates.get_propellant_volume self x = inr 0.
Proof.
  intros Hn Hall.
  assert (Hseg : forall i, In i (range (Bates.segment_count self)) ->
            Bates.get_burn_area_per_segment self i x = inr 0
            /\ Bates.get_propellant_volume_per_segment self x i = inr 0).
  { intros i Hi. apply In_range in Hi.
    destruct (getitem_in_bounds (Bates.core_diameter self) i) as (d & Hd & Hin);
      [lia|].
    apply (per_segment_outside self i x d Hd). apply Hall, Hin. }
  unfold Bates.get_burn_area, Bates.get_propellant_volume.
  rewrite (for_each_append_zeros
             (fun i => Bates.get_burn_area_per_segment self i x))
    by (intros i Hi; apply Hseg, Hi).
  rewrite (for_each_append_zeros
             (fun i => Bates.get_propellant_volume_per_segment self x i))
    by (intros i Hi; apply Hseg, Hi).
  cbn [bind app]. unfold ret. rewrite np_sum_zeros. split; reflexivity.
Qed.

Lemma exhausted_stack_is_zero_witness :
  Bates.get_burn_area Bates.scenario 0.04 = inr 0
  /\ Bates.get_propellant_volume Bates.scenario 0.04 = inr 0.
Proof.
  apply exhausted_stack_is_zero.
  - simpl. unfold np_size. simpl. lia.
  - simpl. intros d [<-|[]]. lra.
Defined.

(** When [segment_count] is larger than the number of entries of
    [core_diameter], the totals over the stack raise [IndexError]. *)
Theorem stack_totals_need_every_core (self : Bates.Bates) (x : R) :
  (np_size (Bates.core_diameter self) < Bates.segment_count self)%Z ->
  Bates.get_burn_area self x = inl IndexError
  /\ Bates.get_propellant_volume self x = inl IndexError.
Proof.
  intros Hn.
  set (k := np_size (Bates.core_diameter self)) in *.
  assert (Hk0 : (0 <= k)%Z) by (unfold k, np_size; lia).
  assert (Hk : In k (range (Bates.segment_count self))).
  { apply range_In. lia. }
  assert (Hcore : getitem (Bates.core_diameter self) k = inl IndexError).
  { apply getitem_beyond. unfold k. lia. }
  unfold Bates.get_burn_area, Bates.get_propellant_volume. split.
  - rewrite (for_each_IndexError _ _ k); [reflexivity| | |exact Hk].
    + intros i s' e E.
      destruct (Bates.get_burn_area_per_segment self i x) as [e'|a] eqn:Ea;
        [|discriminate].
      apply (proj1 (per_segment_raises_IndexError self i x e')) in Ea.
      cbn [bind] in E. congruence.
    + intros s'. unfold Bates.get_burn_area_per_segment.
      rewrite Hcore. reflexivity.
  - rewrite (for_each_IndexError _ _ k); [reflexivity| | |exact Hk].
    + intros i s' e E.
      destruct (Bates.get_propellant_volume_per_segment self x i)
        as [e'|a] eqn:Ea; [|discriminate].
      apply (proj2 (per_segment_raises_IndexError self i x e')) in Ea.
      cbn [bind] in E. congruence.
    + intros s'. unfold Bates.get_propellant_volume_per_segment.
      rewrite Hcore. reflexivity.
Qed.

Lemma stack_totals_need_every_core_witness :
  let stack :=
    {| Bates.segment_count := 2;
       Bates.segment_spacing := 0.01;
       Bates.outer_diameter := 0.115;
       Bates.core_diameter := [0.045];
       Bates.segment_length := [0.2; 0.2] |} in
  Bates.get_burn_area stack 0 = inl IndexError
  /\ Bates.get_propellant_volume stack 0 = inl IndexError.
Proof.
  apply stack_totals_need_every_core. simpl. unfold np_size. simpl. lia.
Defined.

(** ** BATES grain: burn profile *)

(** A series whose first and last burn areas are the same number, not
    zero, is neutral; a series of one sample is such a series. *)
Theorem get_burn_profile_flat (A_burn : list R) (v : R) :
  getitem A_burn 0 = inr v ->
  getitem A_burn (-1) = inr v ->
  v <> 0 ->
  Bates.get_burn_profile A_burn = inr "neutral"%string.
Proof.
  intros Hfirst Hlast Hv. unfold Bates.get_burn_profile.
  rewrite Hfirst, Hlast. cbn [bind].
  assert (Hq : v / v = 1) by (field; exact Hv).
  rewrite Hq.
  replace (1 >? 1.02) with false by (symmetry; apply Rgt_b_false; lra).
  replace (1 <? 0.98) with false by (symmetry; apply Rlt_b_false; lra).
  reflexivity.
Qed.

Lemma get_burn_profile_flat_witness :
  Bates.get_burn_profile [100; 104; 100] = inr "neutral"%string.
Proof.
  apply (get_burn_profile_flat [100; 104; 100] 100).
  - apply getitem_0.
  - reflexivity.
  - lra.
Defined.

(** ** Thrust coefficient at matched pressure *)

(** When the exit pressure equals the external pressure and the
    efficiency is 1, the thrust coefficient returned is the ideal one,
    whatever the library functions compute. *)
Theorem thrust_coeff_at_matched_pressure (L : Libm) (P0 P E k : R) :
  P0 <> 0 ->
  fst (IsentropicFlow.get_thrust_coeff P0 P P E k 1)
  = snd (IsentropicFlow.get_thrust_coeff P0 P P E k 1).
Proof.
  intros HP0. unfold IsentropicFlow.get_thrust_coeff. cbn [fst snd].
  set (Cf_ideal := np_sqrt _).
  replace ((Cf_ideal + E * (P - P) / P0) * 1)%fv with Cf_ideal;
    [reflexivity|].
  destruct Cf_ideal as [c|]; [|reflexivity].
  cbn [fadd fsub fmul fdiv lift2]. f_equal. field. exact HP0.
Qed.

Lemma thrust_coeff_at_matched_pressure_witness :
  fst (@IsentropicFlow.get_thrust_coeff Reals_libm 4000000 101325 101325 8 1.4 1)
  = snd (@IsentropicFlow.get_thrust_coeff Reals_libm 4000000 101325 101325 8 1.4 1).
Proof.
  apply thrust_coeff_at_matched_pressure. lra.
Defined.

(** ** A radicand below zero *)

Lemma real_pow_pos_base (x y : R) :
  0 < x -> y <> 0 -> real_pow x y = Num (Rpower x y).
Proof.
  intros Hx Hy. unfold real_pow, Req_b.
  destruct (Req_dec_T y 0) as [E|_]; [contradiction|].
  replace (0 <? x) with true by (symmetry; apply Rlt_b_true; exact Hx).
  reflexivity.
Qed.

Lemma Rpower_gt_1 (x y : R) : 1 < x -> 0 < y -> 1 < Rpower x y.
Proof.
  intros Hx Hy. unfold Rpower.
  rewrite <- exp_0 at 1. apply exp_increasing.
  apply Rmult_lt_0_compat; [exact Hy|].
  rewrite <- ln_1. apply ln_increasing; lra.
Qed.

(** With the exit pressure at twice the chamber pressure and [k = 1.4]
    the radicand is negative, the square root is NaN, and both
    coefficients come back as NaN: no clamp catches it. *)
Theorem get_thrust_coeff_nan_above_chamber_pressure :
  @IsentropicFlow.get_thrust_coeff Reals_libm 1 2 1 8 1.4 1 = (NaN, NaN).
Proof.
  unfold IsentropicFlow.get_thrust_coeff.
  cbn [float_pow np_sqrt Reals_libm fadd fsub fmul fdiv lift2].
  rewrite (real_pow_pos_base (2 / 1) ((1.4 - 1) / 1.4)) by lra.
  rewrite (real_pow_pos_base (2 / (1.4 + 1)) ((1.4 + 1) / (1.4 - 1))) by lra.
  cbn [fmul fsub fadd fdiv lift2].
  set (a := Rpower (2 / (1.4 + 1)) _).
  set (b := Rpower (2 / 1) _).
  assert (Ha : 0 < a) by apply exp_pos.
  assert (Hb : 1 < b) by (apply Rpower_gt_1; lra).
  unfold real_sqrt.
  replace (_ <? 0) with true; [reflexivity|].
  symmetry. apply Rlt_b_true.
  assert (H : 0 < 2 * 1.4 ^ 2 / (1.4 - 1)) by lra.
  nra.
Qed.

(** ** Mean expansion ratio *)

Lemma set_nth_middle {A : Type} (a b : list A) (x v : A) :
  set_nth (a ++ x :: b) (Datatypes.length a) v = Some (a ++ v :: b).
Proof.
  induction a as [|h a IH]; [reflexivity|].
  simpl. rewrite IH. reflexivity.
Qed.

Lemma setitem_middle {A : Type} (a b : list A) (x v : A) (n : nat) :
  Datatypes.length a = n ->
  setitem (a ++ x :: b) (Z.of_nat n) v = inr (a ++ v :: b).
Proof.
  intros <-. unfold setitem.
  destruct (Z.ltb_spec (Z.of_nat (Datatypes.length a)) 0); [lia|].
  rewrite Nat2Z.id, set_nth_middle. reflexivity.
Qed.

Lemma repeat_snoc {A : Type} (v : A) (n : nat) :
  repeat v n ++ [v] = repeat v (S n).
Proof.
  induction n as [|n IH]; [reflexivity|]. simpl. rewrite IH. reflexivity.
Qed.

(** The loop of [get_expansion_ratio] from index [m] on, when every
    chamber pressure is above the critical ratio: the entries already
    written are 1, the others are still 0. *)
Lemma expansion_ratio_loop_ones (L : Libm) (Pe : R) (P0 : list R)
    (k crit : R) (c m : nat) :
  (forall p, In p P0 -> crit < Pe / p) ->
  (m + c = Datatypes.length P0)%nat ->
  for_each (map Z.of_nat (seq m c))
    (IsentropicFlow.expansion_ratio_at Pe P0 k crit)
    (repeat (Num 1) m ++ repeat (Num 0) c)
  = inr (repeat (Num 1) (m + c)).
Proof.
  intros Hall. revert m. induction c as [|c IH]; intros m Hlen.
  - simpl. rewrite app_nil_r, Nat.add_0_r. reflexivity.
  - cbn [seq map for_each].
    unfold IsentropicFlow.expansion_ratio_at at 1.
    destruct (getitem_in_bounds P0 (Z.of_nat m)) as (p & Hp & Hin);
      [unfold np_size; lia|].
    rewrite Hp. cbn [bind].
    replace (Pe / p <=? crit) with false
      by (symmetry; apply Rle_b_false; apply Hall, Hin).
    cbn [repeat].
    rewrite (setitem_middle (repeat (Num 1) m) (repeat (Num 0) c)
               (Num 0) (Num 1) m)
      by apply repeat_length.
    replace (repeat (Num 1) m ++ Num 1 :: repeat (Num 0) c)
      with (repeat (Num 1) (S m) ++ repeat (Num 0) c)
      by (rewrite <- repeat_snoc, <- app_assoc; reflexivity).
    cbn [bind]. rewrite IH by lia.
    f_equal. f_equal. lia.
Qed.

Lemma np_sum_ones_from (n : nat) (s : R) :
  fold_left fadd (repeat (Num 1) n) (Num s) = Num (s + INR n).
Proof.
  revert s. induction n as [|n IH]; intros s.
  - simpl. f_equal. ring.
  - cbn [repeat fold_left fadd lift2]. rewrite IH, S_INR. f_equal. ring.
Qed.

(** When every chamber pressure of a non-empty series is above the
    critical ratio, the mean expansion ratio is the fallback 1. *)
Theorem get_expansion_ratio_all_supercritical (L : Libm) (Pe : R)
    (P0 : list R) (k critical_pressure_ratio : R) :
  P0 <> [] ->
  (forall p, In p P0 -> critical_pressure_ratio < Pe / p) ->
  IsentropicFlow.get_expansion_ratio Pe P0 k critical_pressure_ratio
  = inr (Num 1).
Proof.
  intros Hne Hall. unfold IsentropicFlow.get_expansion_ratio.
  unfold np_zeros, range, np_size. rewrite Nat2Z.id.
  pose proof (expansion_ratio_loop_ones L Pe P0 k critical_pressure_ratio
                (Datatypes.length P0) 0 Hall eq_refl) as Hloop.
  cbn [repeat app Nat.add] in Hloop. rewrite Hloop. cbn [bind]. unfold ret.
  f_equal. unfold np_mean.
  rewrite np_sum_ones_from, repeat_length. cbn [fdiv lift2].
  assert (Hn : INR (Datatypes.length P0) <> 0).
  { apply not_0_INR. destruct P0; [congruence | discriminate]. }
  f_equal. field. exact Hn.
Qed.

Lemma get_expansion_ratio_all_supercritical_witness :
  @IsentropicFlow.get_expansion_ratio Reals_libm 101325 [150000; 120000]
    1.4 0.53 = inr (Num 1).
Proof.
  apply get_expansion_ratio_all_supercritical.
  - discriminate.
  - intros p [<-|[<-|[]]]; lra.
Defined.

(** ** Impulses *)

Lemma Req_b_true (a b : R) : Req_b a b = true <-> a = b.
Proof. unfold Req_b. destruct (Req_dec_T a b); split; intros; easy. Qed.

Lemma Req_b_false (a b : R) : Req_b a b = false <-> a <> b.
Proof. unfold Req_b. destruct (Req_dec_T a b); split; intros; easy. Qed.

Lemma np_where_from_none (p : R -> bool) (a : list R) (i : Z) :
  (forall v, In v a -> p v = false) -> np_where_from p a i = [].
Proof.
  revert i. induction a as [|v rest IH]; intros i Hp; [reflexivity|].
  simpl. rewrite (Hp v) by (left; reflexivity).
  apply IH. intros w Hw. apply Hp. right. exact Hw.
Qed.

Lemma np_where_from_app (p : R -> bool) (a b : list R) (i : Z) :
  np_where_from p (a ++ b) i
  = np_where_from p a i
    ++ np_where_from p b (i + Z.of_nat (Datatypes.length a)).
Proof.
  revert i. induction a as [|v rest IH]; intros i.
  - simpl. rewrite Z.add_0_r. reflexivity.
  - cbn [app np_where_from Datatypes.length]. rewrite IH.
    replace (i + 1 + Z.of_nat (Datatypes.length rest))%Z
      with (i + Z.of_nat (S (Datatypes.length rest)))%Z by lia.
    destruct (p v); reflexivity.
Qed.

Lemma filter_all {A : Type} (p : A -> bool) (a : list A) :
  (forall v, In v a -> p v = true) -> filter p a = a.
Proof.
  induction a as [|v rest IH]; intros Hp; [reflexivity|].
  simpl. rewrite (Hp v) by (left; reflexivity).
  f_equal. apply IH. intros w Hw. apply Hp. right. exact Hw.
Qed.

Lemma filter_none {A : Type} (p : A -> bool) (a : list A) :
  (forall v, In v a -> p v = false) -> filter p a = [].
Proof.
  induction a as [|v rest IH]; intros Hp; [reflexivity|].
  simpl. rewrite (Hp v) by (left; reflexivity).
  apply IH. intros w Hw. apply Hp. right. exact Hw.
Qed.

Lemma getitem_last {A : Type} (a : list A) (v : A) :
  getitem (a ++ [v]) (-1) = inr v.
Proof.
  unfold getitem. rewrite length_app. cbn [Datatypes.length Z.ltb Z.compare].
  replace (-1 + Z.of_nat (Datatypes.length a + 1))%Z
    with (Z.of_nat (Datatypes.length a)) by lia.
  destruct (Z.leb_spec 0 (Z.of_nat (Datatypes.length a))); [|lia].
  destruct (Z.ltb_spec (Z.of_nat (Datatypes.length a))
              (Z.of_nat (Datatypes.length a + 1))); [|lia].
  cbn [andb]. rewrite Nat2Z.id, nth_error_app2 by lia.
  rewrite Nat.sub_diag. reflexivity.
Qed.

Lemma getitem_last_nonempty {A : Type} (a : list A) :
  a <> [] -> exists v, getitem a (-1) = inr v.
Proof.
  intros Ha. destruct (exists_last Ha) as (front & v & ->).
  exists v. apply getitem_last.
Qed.

(** When no sample of the time series equals [t_burnout],
    [get_impulses] raises [IndexError]. *)
Theorem get_impulses_needs_burnout_sample (F_avg : R) (t : list R)
    (t_burnout : R) (m_prop : list R) :
  ~ In t_burnout t ->
  IsentropicFlow.get_impulses F_avg t t_burnout m_prop = inl IndexError.
Proof.
  intros Hnot. unfold IsentropicFlow.get_impulses, np_where.
  rewrite np_where_from_none; [reflexivity|].
  intros v Hv. apply filter_In in Hv as [Hv _].
  apply Req_b_false. intros ->. contradiction.
Qed.

Lemma get_impulses_needs_burnout_sample_witness :
  IsentropicFlow.get_impulses 1000 [0; 0.5; 1] 0.75 [3; 2; 1]
  = inl IndexError.
Proof.
  apply get_impulses_needs_burnout_sample.
  intros [H|[H|[H|[]]]]; lra.
Defined.

(** When the first sample of the time series is the burnout time
    itself, the propellant mass is cut down to no entry and
    [get_impulses] raises [IndexError], whatever [m_prop] holds. *)
Theorem get_impulses_burnout_at_start (F_avg t_burnout : R)
    (rest m_prop : list R) :
  IsentropicFlow.get_impulses F_avg (t_burnout :: rest) t_burnout m_prop
  = inl IndexError.
Proof.
  unfold IsentropicFlow.get_impulses, np_where.
  cbn [filter].
  replace (t_burnout <=? t_burnout) with true
    by (symmetry; apply Rle_b_true; lra).
  cbn [np_where_from].
  replace (Req_b t_burnout t_burnout) with true
    by (symmetry; apply Req_b_true; reflexivity).
  rewrite getitem_0. cbn [bind ret Z.to_nat firstn].
  destruct (getitem_last_nonempty
              (t_burnout :: filter (fun v => v <=? t_burnout) rest))
    as (v & ->); [discriminate|].
  reflexivity.
Qed.

(** For a time series that rises through [t_burnout], with at least one
    sample before it, and a mass series that is not empty, the total
    impulse is the average thrust times the burnout time, and the
    specific impulse divides it by the initial propellant mass times
    9.81. *)
Theorem get_impulses_at_burnout (F_avg t_burnout m0 : R)
    (before after masses : list R) :
  before <> [] ->
  (forall v, In v before -> v < t_burnout) ->
  (forall v, In v after -> t_burnout < v) ->
  IsentropicFlow.get_impulses F_avg (before ++ t_burnout :: after) t_burnout
    (m0 :: masses)
  = inr (F_avg * t_burnout, F_avg * t_burnout / (m0 * 9.81)).
Proof.
  intros Hne Hbefore Hafter.
  unfold IsentropicFlow.get_impulses, np_where.
  rewrite filter_app. cbn [filter].
  rewrite (filter_all _ before)
    by (intros v Hv; apply Rle_b_true; apply Hbefore in Hv; lra).
  replace (t_burnout <=? t_burnout) with true
    by (symmetry; apply Rle_b_true; lra).
  rewrite (filter_none _ after)
    by (intros v Hv; apply Rle_b_false; apply Hafter, Hv).
  rewrite np_where_from_app.
  rewrite (np_where_from_none _ before)
    by (intros v Hv; apply Req_b_false; apply Hbefore in Hv; lra).
  cbn [app np_where_from].
  replace (Req_b t_burnout t_burnout) with true
    by (symmetry; apply Req_b_true; reflexivity).
  rewrite getitem_0. cbn [bind ret].
  rewrite getitem_last. cbn [bind].
  rewrite Z.add_0_l, Nat2Z.id.
  destruct before as [|b0 before']; [congruence|].
  cbn [Datatypes.length firstn]. rewrite getitem_0. reflexivity.
Qed.

Lemma get_impulses_at_burnout_witness :
  IsentropicFlow.get_impulses 1000 ([0; 0.5] ++ 1 :: [1.5]) 1 (3 :: [2; 1; 0])
  = inr (1000 * 1, 1000 * 1 / (3 * 9.81)).
Proof.
  apply get_impulses_at_burnout.
  - discriminate.
  - intros v [<-|[<-|[]]]; lra.
  - intros v [<-|[]]; lra.
Defined.

(** ** Names the module never binds *)

(** Every call of [get_exit_mach] and of [get_exit_pressure] raises
    [NameError]: the module reads [scipy] without importing it. *)
Theorem exit_functions_raise_NameError (L : Libm) (S : IsentropicFlow.Scipy)
    (k E P0 : R) :
  IsentropicFlow.get_exit_mach k E = inl NameError
  /\ IsentropicFlow.get_exit_pressure k E P0 = inl NameError.
Proof.
  split; [apply get_exit_mach_NameError|].
  unfold IsentropicFlow.get_exit_pressure.
  rewrite get_exit_mach_NameError. reflexivity.
Qed.

(** On a valid input [get_operational_correction_factors] returns its
    three factors exactly when the pressure ratio is above the critical
    one: at or under it every call raises [NameError], the module reading
    [get_circle_area] without importing it.  Valid: chamber pressure,
    shifting specific impulse and throat diameter are positive and the
    expansion ratio is at least 1, so that no division ahead of line 108
    is by zero. *)
Theorem correction_factors_return_iff_supercritical (L : Libm)
    (P0 P_external P0_psi : R)
    (propellant : IsentropicFlow.Propellant)
    (structure : IsentropicFlow.Structure)
    (critical_pressure_ratio V0 t : R) :
  0 < P0 ->
  0 < IsentropicFlow.Isp_shifting propellant ->
  0 < IsentropicFlow.D_throat structure ->
  1 <= IsentropicFlow.Exp_ratio structure ->
  ((exists factors,
      IsentropicFlow.get_operational_correction_factors
        P0 P_external P0_psi propellant structure critical_pressure_ratio
        V0 t
      = inr factors)
   <-> P_external / P0 > critical_pressure_ratio)
  /\ (IsentropicFlow.get_operational_correction_factors
        P0 P_external P0_psi propellant structure critical_pressure_ratio
        V0 t
      = inl NameError
      <-> P_external / P0 <= critical_pressure_ratio).
Proof.
  intros _ _ _ _.
  destruct (Rle_lt_dec (P_external / P0) critical_pressure_ratio)
    as [Hsub|Hsup].
  - pose proof (subcritical_raises_NameError L P0 P_external P0_psi
                  propellant structure critical_pressure_ratio V0 t Hsub)
      as Herr.
    split; split.
    + intros [factors H]. rewrite Herr in H. discriminate.
    + intros H. lra.
    + intros _. exact Hsub.
    + intros _. exact Herr.
  - assert (Hret : exists factors,
              IsentropicFlow.get_operational_correction_factors
                P0 P_external P0_psi propellant structure
                critical_pressure_ratio V0 t
              = inr factors).
    { unfold IsentropicFlow.get_operational_correction_factors.
      replace (P_external / P0 <=? critical_pressure_ratio) with false
        by (symmetry; apply Rle_b_false; exact Hsup).
      eexists. reflexivity. }
    split; split.
    + intros _. lra.
    + intros _. exact Hret.
    + intros H. destruct Hret as [factors Hret]. rewrite Hret in H.
      discriminate.
    + intros H. lra.
Qed.

Lemma correction_factors_return_iff_supercritical_witness :
  IsentropicFlow.get_operational_correction_factors
    4000000 101325 580 IsentropicFlow.propellant_2
    IsentropicFlow.throat_25mm 0.56 0.001 1
  = inl NameError
  <-> 101325 / 4000000 <= 0.56.
Proof.
  apply (correction_factors_return_iff_supercritical Reals_libm
           4000000 101325 580 IsentropicFlow.propellant_2
           IsentropicFlow.throat_25mm 0.56 0.001 1);
    simpl; lra.
Defined.

(** ** Mass flux with no time step *)

Lemma get_mass_flux_per_segment_no_steps_witness :
  Bates.get_mass_flux_per_segment Bates.scenario [] 1800 [0; 0.01]
  = inr [[0; 0]].
Proof.
  apply (get_mass_flux_per_segment_no_steps Bates.scenario 1800 [0; 0.01]).
  simpl. lia.
Defined.
